(** * create-test-logo.py: a verified model of the test-logo generator

  The script allocates a 200x200 RGB canvas through Pillow's [Image.new],
  draws one filled ellipse through [ImageDraw.Draw(img).ellipse], saves
  the canvas as [test-logo.png] and prints one line.

  The script itself is five statements; what those statements do is
  decided by the Pillow routines they call.  The development therefore
  has three layers:

  - [ImageColor], [Imaging]: the Pillow routines the script reaches
    (colour-string parsing, [ImagingFill], [hline32], the ellipse
    scan converter of libImaging's Draw.c), as pure functions;
  - [Py]: a small error-and-state monad for the Python statements, with
    an object heap (the canvas is one shared mutable object), a file
    system, the two output streams and an event log;
  - [Script]: the statements of create-test-logo.py, in source order. *)

From Stdlib Require Import ZArith Lia Ascii String.
From stdpp Require Import base option list gmap strings.

Local Open Scope string_scope.
Local Open Scope Z_scope.

(** ** Colour strings (PIL/ImageColor.py) *)

Module ImageColor.

(** A pixel of an RGB raster: three byte values, as Python's 3-tuple. *)
Definition RGB : Type := Z * Z * Z.

(** [color.lower()] on one character. *)
Definition lower (c : ascii) : ascii :=
  let n := N_of_ascii c in
  if ((65 <=? n) && (n <=? 90))%N then ascii_of_N (n + 32) else c.

(** The value of a character of the class [a-f0-9]. *)
Definition hexval (c : ascii) : option Z :=
  let n := Z.of_N (N_of_ascii c) in
  if (48 <=? n) && (n <=? 57) then Some (n - 48)
  else if (97 <=? n) && (n <=? 102) then Some (n - 87)
  else None.

(** [int(s, 16)] for a two-character slice. *)
Definition int16 (hi lo : ascii) : option Z :=
  h ← hexval hi; l ← hexval lo; Some (16 * h + l).

(** [getrgb]: the branches for the patterns [#[a-f0-9]{3}$] and
    [#[a-f0-9]{6}$] of the lower-cased string.  The named colours and the
    functional notations are not part of this model; a string of neither
    hexadecimal shape is rejected as Pillow rejects an unknown specifier. *)
Definition getrgb (color : string) : option RGB :=
  match list_ascii_of_string color with
  | "#"%char :: digits =>
      match List.map lower digits with
      | [r; g; b] =>
          r' ← int16 r r; g' ← int16 g g; b' ← int16 b b; Some (r', g', b')
      | [r1; r0; g1; g0; b1; b0] =>
          r' ← int16 r1 r0; g' ← int16 g1 g0; b' ← int16 b1 b0;
          Some (r', g', b')
      | _ => None
      end
  | _ => None
  end.

End ImageColor.

Export ImageColor(RGB).

(** ** The raster and the scan converter (libImaging)

  The routines behind [Image.new] and [draw.ellipse], after Draw.c and
  Fill.c of Pillow 8 and later.  Integers are C [int] and [int64_t]; for
  the script's box every quantity stays below [10^8], far from wrapping
  around, and is kept in [Z]. *)

Module Imaging.

(** [struct ImagingMemoryInstance], for mode RGB: the size and the array
    of rows [image32[y][x]]. *)
Record Raster : Type := mkRaster {
  xsize : Z;
  ysize : Z;
  image32 : list (list RGB)
}.

(** [ImagingFill] on a freshly allocated [xsize] by [ysize] raster. *)
Definition fill (w h : Z) (ink : RGB) : Raster :=
  mkRaster w h (replicate (Z.to_nat h) (replicate (Z.to_nat w) ink)).

(** Reading [image32[y][x]]; [None] outside the allocated rows. *)
Definition getpixel (im : Raster) (x y : Z) : option RGB :=
  if (0 <=? x) && (0 <=? y)
  then row ← image32 im !! Z.to_nat y; row !! Z.to_nat x
  else None.

(** The store loop [while (x0 <= x1) p[x0++] = ink;] of [hline32]. *)
Definition store_run (p : list RGB) (x0 x1 : Z) (ink : RGB) : list RGB :=
  foldl (fun q x => <[Z.to_nat x := ink]> q) p (seqZ x0 (x1 - x0 + 1)).

(** The clipping of [hline32] against a raster of [xs] by [ys] pixels:
    the run it stores to on row [y0], if any. *)
Definition hline_clip (xs ys : Z) (x0 y0 x1 : Z) : option (Z * Z) :=
  if (0 <=? y0) && (y0 <? ys) then
    let '(x0, x1) := if x1 <? x0 then (x1, x0) else (x0, x1) in
    if xs <=? x0 then None
    else if x1 <? 0 then None
    else Some (Z.max 0 x0, if xs <=? x1 then xs - 1 else x1)
  else None.

(** [hline32(im, x0, y0, x1, ink)]. *)
Definition hline32 (im : Raster) (x0 y0 x1 : Z) (ink : RGB) : Raster :=
  match hline_clip (xsize im) (ysize im) x0 y0 x1 with
  | Some (l, r) =>
      mkRaster (xsize im) (ysize im)
        (alter (fun p => store_run p l r ink) (Z.to_nat y0) (image32 im))
  | None => im
  end.

(** *** One quarter of an ellipse, in doubled coordinates *)

Record quarter_state : Type := mkQuarter {
  qa : Z; qb : Z;
  cx : Z; cy : Z;
  ex : Z; ey : Z;
  a2 : Z; b2 : Z; a2b2 : Z;
  qfinished : bool
}.

(** C's [%] on a non-negative left operand and 2. *)
Definition rem2 (n : Z) : Z := Z.rem n 2.

Definition quarter_init (a b : Z) : quarter_state :=
  if (a <? 0) || (b <? 0)
  then mkQuarter 0 0 0 0 0 0 0 0 0 true
  else mkQuarter a b a (rem2 b) (rem2 a) b (a * a) (b * b)
                 ((a * a) * (b * b)) false.

(** [quarter_delta]: how far the point is from the ideal curve. *)
Definition quarter_delta (s : quarter_state) (x y : Z) : Z :=
  Z.abs (a2 s * y * y + b2 s * x * x - a2b2 s).

Definition set_cur (s : quarter_state) (nx ny : Z) : quarter_state :=
  mkQuarter (qa s) (qb s) nx ny (ex s) (ey s) (a2 s) (b2 s) (a2b2 s)
            (qfinished s).

Definition set_finished (s : quarter_state) : quarter_state :=
  mkQuarter (qa s) (qb s) (cx s) (cy s) (ex s) (ey s) (a2 s) (b2 s)
            (a2b2 s) true.

(** [quarter_next]: [None] is the C return value -1; otherwise the point
    handed back and the advanced state. *)
Definition quarter_next (s : quarter_state)
  : option (Z * Z) * quarter_state :=
  if qfinished s then (None, s)
  else
    let ret := (cx s, cy s) in
    if (cx s =? ex s) && (cy s =? ey s) then (Some ret, set_finished s)
    else
      let nx := cx s in
      let ny := cy s + 2 in
      let ndelta := quarter_delta s nx ny in
      let '(nx, ny) :=
        if 1 <? nx then
          let newdelta := quarter_delta s (cx s - 2) (cy s + 2) in
          let '(nx, ny, ndelta) :=
            if newdelta <? ndelta
            then (cx s - 2, cy s + 2, newdelta) else (nx, ny, ndelta) in
          let newdelta := quarter_delta s (cx s - 2) (cy s) in
          if newdelta <? ndelta then (cx s - 2, cy s) else (nx, ny)
        else (nx, ny) in
      (Some ret, set_cur s nx ny).

(** *** The row iterator over the outer and the inner ellipse *)

(** A horizontal run [(X0, Y, X1)] in doubled coordinates. *)
Definition span : Type := Z * Z * Z.

(** [ellipse_state]; the three arrays [cl], [cy], [cr] with their counter
    [bufcnt] are a stack, kept here as a list with its top first. *)
Record ellipse_state : Type := mkEllipse {
  st_o : quarter_state;
  st_i : quarter_state;
  py : Z; pl : Z; pr : Z;
  buf : list span;
  finished : bool;
  leftmost : Z
}.

Definition ellipse_init (a b w : Z) : ellipse_state :=
  let o := quarter_init a b in
  let dead := mkEllipse o (quarter_init (-1) (-1)) 0 0 0 [] true (rem2 a) in
  if w <? 1 then dead
  else
    match quarter_next o with
    | (None, _) => dead
    | (Some (r, y), o') =>
        mkEllipse o' (quarter_init (a - 2 * w) (b - 2 * w)) y (rem2 a) r
                  [] false (rem2 a)
    end.

(** The two loops [while ((next_ret = quarter_next(q, &cx, &cy)) != -1 &&
    cy <= y)]: the point that ended the loop (or [None] for -1), the last
    abscissa seen on rows up to [y] (the inner loop's [l = cx]), and the
    quarter after the loop.  [None] overall when the fuel runs out. *)
Fixpoint quarter_skip (fuel : nat) (q : quarter_state) (y l : Z)
  : option (option (Z * Z) * Z * quarter_state) :=
  match fuel with
  | O => None
  | S fuel' =>
      match quarter_next q with
      | (None, q') => Some (None, l, q')
      | (Some (x', y'), q') =>
          if y' <=? y then quarter_skip fuel' q' y x'
          else Some (Some (x', y'), l, q')
      end
  end.

(** The runs of row [y] between the inner bound [l] and the outer bound
    [r], in the order [ellipse_next] pushes them. *)
Definition row_spans (y l r : Z) : list span :=
  let cl := if l =? 0 then 2 else l in
  (if ((0 <? l) || (l <? r)) && (0 <? y) then [(cl, y, r)] else [])
  ++ (if 0 <? y then [(- r, y, - l)] else [])
  ++ (if (0 <? l) || (l <? r) then [(cl, - y, r)] else [])
  ++ [(- r, - y, - l)].

(** [ellipse_next]: [Some (None, _)] is the C return value -1. *)
Definition ellipse_next (fuel : nat) (s : ellipse_state)
  : option (option span * ellipse_state) :=
  match buf s with
  | top :: rest =>
      Some (Some top,
            mkEllipse (st_o s) (st_i s) (py s) (pl s) (pr s) rest
                      (finished s) (leftmost s))
  | [] =>
      if finished s then Some (None, s)
      else
        let y := py s in
        let l := pl s in
        let r := pr s in
        '(nxt_o, _, o') ← quarter_skip fuel (st_o s) y 0;
        '(nxt_i, l, i') ← quarter_skip fuel (st_i s) y l;
        let '(fin, pr', py') :=
          match nxt_o with
          | None => (true, pr s, py s)
          | Some (x', y') => (finished s, x', y')
          end in
        let pl' :=
          match nxt_i with None => leftmost s | Some (x', _) => x' end in
        match rev (row_spans y l r) with
        | top :: rest =>
            Some (Some top,
                  mkEllipse o' i' py' pl' pr' rest fin (leftmost s))
        | [] => None
        end
  end.

(** The call [hline(im, x0 + (X0 + a) / 2, y0 + (Y + b) / 2,
    x0 + (X1 + a) / 2, ink)]; C's [/] truncates. *)
Definition span_hline (x0 y0 a b : Z) (sp : span) : Z * Z * Z :=
  let '(X0, Y, X1) := sp in
  (x0 + Z.quot (X0 + a) 2, y0 + Z.quot (Y + b) 2, x0 + Z.quot (X1 + a) 2).

Definition draw_span (x0 y0 a b : Z) (ink : RGB) (im : Raster) (sp : span)
  : Raster :=
  let '(l, y, r) := span_hline x0 y0 a b sp in hline32 im l y r ink.

(** The loop [while (ellipse_next(&st, &X0, &Y, &X1) != -1) hline(...)]. *)
Fixpoint ellipse_loop (fuel : nat) (x0 y0 a b : Z) (ink : RGB)
    (s : ellipse_state) (im : Raster) : option Raster :=
  match fuel with
  | O => None
  | S fuel' =>
      match ellipse_next fuel s with
      | None => None
      | Some (None, _) => Some im
      | Some (Some sp, s') =>
          ellipse_loop fuel' x0 y0 a b ink s' (draw_span x0 y0 a b ink im sp)
      end
  end.

(** The runs that loop hands to [hline], in order. *)
Fixpoint ellipse_trace (fuel : nat) (s : ellipse_state)
  : option (list span) :=
  match fuel with
  | O => None
  | S fuel' =>
      match ellipse_next fuel s with
      | None => None
      | Some (None, _) => Some []
      | Some (Some sp, s') => cons sp <$> ellipse_trace fuel' s'
      end
  end.

(** Enough steps for both quarters and for every buffered run: a quarter
    takes at most [a / 2 + b / 2 + 1] steps and a row holds four runs. *)
Definition ellipse_fuel (a b : Z) : nat := Z.to_nat (4 * (a + b) + 8).

(** [ellipseNew(im, x0, y0, x1, y1, ink, fill, width, op)]. *)
Definition ellipseNew (im : Raster) (x0 y0 x1 y1 : Z) (ink : RGB)
    (fill : bool) (width : Z) : option Raster :=
  let a := x1 - x0 in
  let b := y1 - y0 in
  if (a <? 0) || (b <? 0) then Some im
  else
    let width := if fill then a + b else width in
    ellipse_loop (ellipse_fuel a b) x0 y0 a b ink
                 (ellipse_init a b width) im.

(** The new value of a pixel that a store either hits or misses. *)
Definition paint (ink : RGB) (hit : bool) (old : RGB) : RGB :=
  if hit then ink else old.

(** Whether pixel [(x, y)] lies on the clipped run [o] of row [y0]. *)
Definition in_run (o : option (Z * Z)) (y0 x y : Z) : bool :=
  match o with
  | Some (l, r) => (y =? y0) && (l <=? x) && (x <=? r)
  | None => false
  end.

(** Whether the [hline] call made for the run [sp] stores to [(x, y)]. *)
Definition span_hits (xs ys x0 y0 a b x y : Z) (sp : span) : bool :=
  let '(l, yl, r) := span_hline x0 y0 a b sp in
  in_run (hline_clip xs ys l yl r) yl x y.

End Imaging.

(** ** The Python statements: errors, the object heap, files and streams *)

Module Py.

Import Imaging.

(** What [OSError] carries besides the file name. *)
Record os_error : Type := mkOsError { errno : Z; strerror : string }.

Inductive exn : Type :=
| ValueError (msg : string)
| TypeError (msg : string)
| MemoryError
| OSError (e : os_error) (filename : string).

(** The outcome of a statement.  [Stuck] is not a Python outcome: it
    stands for a scan conversion that outlives its step budget or a
    reference to no object, and the results below show that the script
    never reaches it. *)
Inductive result (A : Type) : Type :=
| Ok (a : A)
| Raise (e : exn)
| Stuck.
Arguments Ok {A} a.
Arguments Raise {A} e.
Arguments Stuck {A}.

(** A file is kept as the raster it decodes to: PNG is lossless, and the
    encoder's bytes are no part of this model. *)
Inductive file : Type :=
| PNG (im : Raster).

Definition decode (f : file) : Raster := match f with PNG im => im end.

Inductive event : Type :=
| Written (path : string) (f : file)
| Printed (line : string).

(** What the interpreter writes to standard error for an uncaught
    exception. *)
Inductive diagnostic : Type :=
| Traceback (e : exn).

Record World : Type := mkWorld {
  heap : list Raster;
  fs : gmap string file;
  stdout : list string;
  stderr : list diagnostic;
  log : list event
}.

(** The two places where the host can refuse: allocating a raster of a
    given size, and writing a file (which then raises the host's error and
    leaves the file system as the host says). *)
Record Host : Type := mkHost {
  alloc_ok : Z -> Z -> bool;
  write_fault : string -> gmap string file -> option (os_error * gmap string file)
}.

Definition M (A : Type) : Type := World -> result A * World.

Definition ret {A} (a : A) : M A := fun w => (Ok a, w).

Definition bind {A B} (m : M A) (k : A -> M B) : M B :=
  fun w =>
    match m w with
    | (Ok a, w') => k a w'
    | (Raise e, w') => (Raise e, w')
    | (Stuck, w') => (Stuck, w')
    end.

Definition raise {A} (e : exn) : M A := fun w => (Raise e, w).

Definition of_option {A} (e : exn) (o : option A) : M A :=
  match o with Some a => ret a | None => raise e end.

Declare Scope py_scope.
Delimit Scope py_scope with py.
Notation "x <- m ;; k" := (bind m (fun x => k))
  (at level 100, m at next level, right associativity) : py_scope.
Notation "m ;; k" := (bind m (fun _ => k))
  (at level 100, right associativity) : py_scope.

(** A reference to an image object. *)
Definition ref : Type := nat.

Definition with_heap (w : World) (h : list Raster) : World :=
  mkWorld h (fs w) (stdout w) (stderr w) (log w).

Definition alloc (im : Raster) : M ref :=
  fun w => (Ok (length (heap w)), with_heap w (heap w ++ [im])).

Definition deref (r : ref) : M Raster :=
  fun w => match heap w !! r with
           | Some im => (Ok im, w)
           | None => (Stuck, w)
           end.

Definition assign (r : ref) (im : Raster) : M unit :=
  fun w => (Ok tt, with_heap w (<[r := im]> (heap w))).

(** [print(line)]. *)
Definition print (line : string) : M unit :=
  fun w => (Ok tt, mkWorld (heap w) (fs w) (stdout w ++ [line]) (stderr w)
                           (log w ++ [Printed line])).

End Py.

(** ** PIL/Image.py *)

Module Image.

Import Imaging Py.
Local Open Scope py_scope.

(** [ImageColor.getcolor(color, mode)], for mode RGB. *)
Definition getcolor (color : string) : M RGB :=
  of_option (ValueError "unknown color specifier") (ImageColor.getrgb color).

(** [Image.new(mode, size, color)] with a colour string: the size check,
    the colour, then [core.fill].  Only RGB rasters are modelled; any other
    mode string is refused as an unrecognised mode is. *)
Definition new (host : Host) (mode : string) (size : Z * Z) (color : string)
  : M ref :=
  let '(w, h) := size in
  if (w <? 0) || (h <? 0)
  then raise (ValueError "Width and height must be >= 0")
  else
    ink <- getcolor color ;;
    if negb (String.eqb mode "RGB")
    then raise (ValueError "unrecognized image mode")
    else if negb (alloc_ok host w h) then raise MemoryError
    else alloc (fill w h ink).

(** [img.save(fp)] for a file name ending in [.png]: the file is opened
    for writing and receives the encoded raster, replacing what was there. *)
Definition save (host : Host) (img : ref) (fp : string) : M unit :=
  im <- deref img ;;
  fun w =>
    match write_fault host fp (fs w) with
    | Some (e, fs') =>
        (Raise (OSError e fp),
         mkWorld (heap w) fs' (stdout w) (stderr w) (log w))
    | None =>
        (Ok tt,
         mkWorld (heap w) (<[fp := PNG im]> (fs w)) (stdout w) (stderr w)
                 (log w ++ [Written fp (PNG im)]))
    end.

End Image.

(** ** PIL/ImageDraw.py *)

Module ImageDraw.

Import Imaging Py.
Local Open Scope py_scope.

(** The drawing object: it keeps a reference to the image it was made
    for, not a copy, together with its default ink. *)
Record ImageDraw : Type := mkDraw {
  im : ref;
  ink : RGB;
  fill : bool
}.

(** [ImageDraw.Draw(img)]: default ink white, [fill = False]. *)
Definition Draw (img : ref) : M ImageDraw :=
  _ <- deref img ;; ret (mkDraw img (255, 255, 255) false).

(** [_getink(ink, fill)]: the outline ink and the fill ink. *)
Definition _getink (d : ImageDraw) (outline fill' : option string)
  : M (option RGB * option RGB) :=
  match outline, fill' with
  | None, None =>
      ret (if fill d then (None, Some (ink d)) else (Some (ink d), None))
  | _, _ =>
      o <- match outline with
           | Some c => c' <- Image.getcolor c ;; ret (Some c')
           | None => ret None
           end ;;
      f <- match fill' with
           | Some c => c' <- Image.getcolor c ;; ret (Some c')
           | None => ret None
           end ;;
      ret (o, f)
  end.

(** [self.draw.draw_ellipse(xy, ink, fill, width)] on the shared raster. *)
Definition draw_ellipse (d : ImageDraw) (xy : list Z) (c : RGB)
    (filled : bool) (width : Z) : M unit :=
  match xy with
  | [x0; y0; x1; y1] =>
      if x1 <? x0
      then raise (ValueError "x1 must be greater than or equal to x0")
      else if y1 <? y0
      then raise (ValueError "y1 must be greater than or equal to y0")
      else
        r <- deref (im d) ;;
        match ellipseNew r x0 y0 x1 y1 c filled width with
        | Some r' => assign (im d) r'
        | None => fun w => (Stuck, w)
        end
  | _ => raise (TypeError "coordinate list must contain exactly 2 coordinates")
  end.

(** [draw.ellipse(xy, fill=None, outline=None, width=1)]. *)
Definition ellipse (d : ImageDraw) (xy : list Z)
    (fill' outline : option string) (width : Z) : M unit :=
  inks <- _getink d outline fill' ;;
  let '(ink', fill'') := inks in
  (match fill'' with
   | Some c => draw_ellipse d xy c true 1
   | None => ret tt
   end) ;;
  match ink' with
  | Some c =>
      if negb (bool_decide (Some c = fill'')) && negb (width =? 0)
      then draw_ellipse d xy c false width
      else ret tt
  | None => ret tt
  end.

End ImageDraw.

(** ** create-test-logo.py *)

Module Script.

Import Imaging Py.
Local Open Scope py_scope.

Definition main (host : Host) : M unit :=
  (* Create a 200x200 image with blue background *)
  img <- Image.new host "RGB" (200, 200) "#3B82F6" ;;
  draw <- ImageDraw.Draw img ;;
  (* Draw a yellow circle in the center *)
  ImageDraw.ellipse draw [50; 50; 150; 150] (Some "#EAB308") None 1 ;;
  (* Save as PNG *)
  Image.save host img "test-logo.png" ;;
  print "Test logo created successfully".

(** A fresh interpreter process over the files [files]. *)
Definition boot (files : gmap string file) : World :=
  mkWorld [] files [] [] [].

(** Running the script as a process: the exit status and the world it
    leaves.  An uncaught exception is reported on standard error and
    gives status 1. *)
Definition run (host : Host) (files : gmap string file)
  : option (Z * World) :=
  match main host (boot files) with
  | (Ok _, w) => Some (0, w)
  | (Raise e, w) =>
      Some (1, mkWorld (heap w) (fs w) (stdout w)
                       (stderr w ++ [Traceback e]) (log w))
  | (Stuck, _) => None
  end.

End Script.

(** ** The values the script works with *)

Module Logo.

Import Imaging.

Definition blue : RGB := (59, 130, 246).
Definition yellow : RGB := (234, 179, 8).
Definition white : RGB := (255, 255, 255).

Definition path : string := "test-logo.png".
Definition message : string := "Test logo created successfully".

(** The canvas as [Image.new] leaves it. *)
Definition canvas : Raster := fill 200 200 blue.

(** The runs the scan converter produces for the box (50,50)-(150,150):
    the axes are [a = b = 100], and a filled ellipse has width [a + b]. *)
Definition spans : list span :=
  Eval vm_compute in
    default [] (ellipse_trace (ellipse_fuel 100 100) (ellipse_init 100 100 200)).

(** What the drawing call makes of a raster. *)
Definition drawn (im : Raster) : Raster :=
  foldl (draw_span 50 50 100 100 yellow) im spans.

(** The canvas after the drawing call. *)
Definition logo : Raster := drawn canvas.

(** Whether the drawing call stores to pixel [(x, y)] of a 200x200 raster. *)
Definition written (x y : Z) : bool :=
  existsb (span_hits 200 200 50 50 100 100 x y) spans.

(** The store addresses of one [hline] call when nothing is clipped:
    [p[x]] of row [y] for every [x] from [l] up to [r]. *)
Definition stores (run : Z * Z * Z) : list (Z * Z) :=
  let '(l, y, r) := run in (fun x => (x, y)) <$> seqZ l (r - l + 1).

(** Every store address of the drawing call, before any clipping. *)
Definition store_addresses : list (Z * Z) :=
  spans ≫= (fun sp => stores (span_hline 50 50 100 100 sp)).

(** *** Geometry

    A point, given by twice its coordinates [(px2, py2)], lies within the
    ellipse inscribed in the rectangle from [(L, T)] to [(R, B)] when
    [((2 px - L - R) / (R - L))^2 + ((2 py - T - B) / (B - T))^2 <= 1]. *)
Definition in_ellipse (L T R B px2 py2 : Z) : bool :=
  (px2 - L - R) ^ 2 * (B - T) ^ 2 + (py2 - T - B) ^ 2 * (R - L) ^ 2
  <=? (R - L) ^ 2 * (B - T) ^ 2.

(** Three readings of "the centre of pixel [(x, y)] falls within the
    ellipse inscribed in the bounding box (50,50)-(150,150)".

    [within_inclusive]: the box names its first and last pixel, as the
    drawing call takes it, so it spans the square from 50 to 151, and a
    pixel's centre is at [(x + 1/2, y + 1/2)]. *)
Definition within_inclusive (x y : Z) : bool :=
  in_ellipse 50 50 151 151 (2 * x + 1) (2 * y + 1).

(** [within_grid]: the box is the square from 50 to 150 and a pixel's
    centre is the grid point [(x, y)]: the disc of radius 50 about
    (100, 100). *)
Definition within_grid (x y : Z) : bool :=
  in_ellipse 50 50 150 150 (2 * x) (2 * y).

(** [within_half]: the box is the square from 50 to 150 and a pixel's
    centre is at [(x + 1/2, y + 1/2)]. *)
Definition within_half (x y : Z) : bool :=
  in_ellipse 50 50 150 150 (2 * x + 1) (2 * y + 1).

(** The draw-ellipse operation of the script, on the object a drawing
    handle [d] refers to. *)
Definition draw_call (d : ImageDraw.ImageDraw) : Py.M unit :=
  ImageDraw.ellipse d [50; 50; 150; 150] (Some "#EAB308") None 1.

(** "The operation overwrites exactly the pixels [inside] and leaves every
    other pixel of the 200x200 canvas as it was." *)
Definition overwrites_exactly (inside : Z -> Z -> bool) : Prop :=
  forall (w : Py.World) (d : ImageDraw.ImageDraw) (im : Raster),
    Py.heap w !! ImageDraw.im d = Some im ->
    xsize im = 200 -> ysize im = 200 ->
    exists im',
      draw_call d w
      = (Py.Ok tt, Py.with_heap w (<[ImageDraw.im d := im']> (Py.heap w)))
      /\ forall x y, 0 <= x < 200 -> 0 <= y < 200 ->
           getpixel im' x y = paint yellow (inside x y) <$> getpixel im x y.

(** Each run of the drawing call, as handed to [hline], lies in the rows
    and columns 50 to 150. *)
Definition span_in_box (sp : span) : bool :=
  let '(l, y, r) := span_hline 50 50 100 100 sp in
  (50 <=? l) && (l <=? r) && (r <=? 150) && (50 <=? y) && (y <=? 150).

(** The [hline] calls of the drawing call: first column, row, last column. *)
Definition runs : list (Z * Z * Z) :=
  Eval vm_compute in span_hline 50 50 100 100 <$> spans.

(** Whether pixel [(x, y)] lies on a run. *)
Definition on_run (x y : Z) (run : Z * Z * Z) : bool :=
  let '(l, yl, r) := run in (y =? yl) && (l <=? x) && (x <=? r).

(** A check of every pixel of the rows and columns 50 to 150. *)
Definition box_all (P : Z -> Z -> bool) : bool :=
  forallb (fun y => forallb (fun x => P x y) (seqZ 50 101)) (seqZ 50 101).

(** The image a run of the script produces: the one object on the heap when
    the process ends, which is also what the file decodes to when the exit
    status is 0. *)
Definition produces (host : Py.Host) (files : gmap string Py.file)
    (im : Raster) : Prop :=
  exists st w,
    Script.run host files = Some (st, w)
    /\ Py.heap w = [im]
    /\ (st = 0 -> Py.fs w !! path = Some (Py.PNG im)).

(** A host that never refuses. *)
Definition willing : Py.Host := Py.mkHost (fun _ _ => true) (fun _ _ => None).

(** A host on which the file cannot be written. *)
Definition read_only : Py.Host :=
  Py.mkHost (fun _ _ => true)
            (fun _ files => Some (Py.mkOsError 13 "Permission denied", files)).

(** A world whose heap holds the fresh canvas, and a drawing handle on it. *)
Definition studio : Py.World := Py.mkWorld [canvas] ∅ [] [] [].
Definition pen : ImageDraw.ImageDraw := ImageDraw.mkDraw 0%nat white false.

(** The world a successful run leaves behind. *)
Definition success_world (files : gmap string Py.file) : Py.World :=
  Py.mkWorld [logo] (<[path := Py.PNG logo]> files) [message] []
             [Py.Written path (Py.PNG logo); Py.Printed message].

End Logo.

(** ** What the raster routines do to a pixel *)

Module ImagingFacts.

Import Imaging.

Lemma paint_miss ink (o : option RGB) : paint ink false <$> o = o.
Proof. by destruct o. Qed.

Lemma paint_twice ink b1 b2 (o : option RGB) :
  paint ink b2 <$> (paint ink b1 <$> o) = paint ink (b1 || b2) <$> o.
Proof. destruct o as [c|]; [|done]. by destruct b1, b2. Qed.

Lemma stores_lookup (xs : list Z) (p : list RGB) ink (i : nat) :
  Forall (fun x => 0 <= x) xs ->
  foldl (fun q x => <[Z.to_nat x := ink]> q) p xs !! i
  = paint ink (bool_decide (Z.of_nat i ∈ xs)) <$> p !! i.
Proof.
  intros Hpos. revert p.
  induction Hpos as [|x xs Hx _ IH]; intros p; cbn [foldl].
  - rewrite bool_decide_eq_false_2; [by rewrite paint_miss|].
    by intros ?%elem_of_nil.
  - rewrite IH, list_lookup_insert.
    destruct (decide (Z.to_nat x = i ∧ (Z.to_nat x < length p)%nat))
      as [[<- Hlen]|Hno].
    + apply lookup_lt_is_Some_2 in Hlen as [c ->]. simpl.
      rewrite (bool_decide_eq_true_2 (_ ∈ x :: xs));
        [by destruct (bool_decide _)|].
      rewrite Z2Nat.id by done. apply list_elem_of_here.
    + destruct (decide (Z.of_nat i = x)) as [<-|Hne].
      * rewrite Nat2Z.id in Hno.
        rewrite lookup_ge_None_2; [done|]. apply Nat.nlt_ge. tauto.
      * f_equal. f_equal. apply bool_decide_ext.
        rewrite elem_of_cons. tauto.
Qed.

Lemma store_run_lookup (p : list RGB) l r ink (i : nat) :
  0 <= l ->
  store_run p l r ink !! i
  = paint ink ((l <=? Z.of_nat i) && (Z.of_nat i <=? r)) <$> p !! i.
Proof.
  intros Hl. unfold store_run. rewrite stores_lookup.
  - f_equal. f_equal. apply eq_true_iff_eq.
    rewrite bool_decide_eq_true, elem_of_seqZ, andb_true_iff.
    rewrite Z.leb_le, Z.leb_le. lia.
  - apply Forall_forall. intros x Hx%elem_of_seqZ. lia.
Qed.

Lemma hline_clip_Some xs ys x0 y0 x1 l r :
  hline_clip xs ys x0 y0 x1 = Some (l, r) ->
  0 <= y0 < ys /\ 0 <= l /\ r < xs.
Proof.
  unfold hline_clip. intros H.
  destruct (0 <=? y0) eqn:Hy0, (y0 <? ys) eqn:Hy1; simpl in H; try done.
  apply Z.leb_le in Hy0. apply Z.ltb_lt in Hy1.
  destruct (if x1 <? x0 then (x1, x0) else (x0, x1)) as [u v].
  destruct (xs <=? u) eqn:Hu; [done|].
  destruct (v <? 0); [done|].
  destruct (xs <=? v) eqn:Hv; injection H as <- <-;
    apply Z.leb_gt in Hu; try apply Z.leb_gt in Hv; lia.
Qed.

(** One [hline32] call, seen from any pixel. *)
Lemma getpixel_hline32 im x0 y0 x1 ink x y :
  getpixel (hline32 im x0 y0 x1 ink) x y
  = paint ink (in_run (hline_clip (xsize im) (ysize im) x0 y0 x1) y0 x y)
      <$> getpixel im x y.
Proof.
  unfold hline32.
  destruct (hline_clip _ _ _ _ _) as [[l r]|] eqn:Hclip; simpl;
    [|by rewrite paint_miss].
  apply hline_clip_Some in Hclip as (Hy0 & Hl & _).
  unfold getpixel; simpl.
  destruct (0 <=? x) eqn:Hx, (0 <=? y) eqn:Hy; simpl; try done.
  apply Z.leb_le in Hx. apply Z.leb_le in Hy.
  rewrite list_lookup_alter.
  destruct (decide (Z.to_nat y0 = Z.to_nat y)) as [Heq|Hne].
  - assert (y = y0) as -> by lia. rewrite Z.eqb_refl. simpl.
    destruct (image32 im !! Z.to_nat y0) as [row|]; simpl; [|done].
    rewrite store_run_lookup by done. by rewrite Z2Nat.id.
  - assert ((y =? y0) = false) as -> by (apply Z.eqb_neq; lia). simpl.
    by rewrite paint_miss.
Qed.

Lemma hline32_size im x0 y0 x1 ink :
  xsize (hline32 im x0 y0 x1 ink) = xsize im
  /\ ysize (hline32 im x0 y0 x1 ink) = ysize im.
Proof. unfold hline32. by destruct (hline_clip _ _ _ _ _) as [[??]|]. Qed.

Lemma draw_span_size x0 y0 a b ink im sp :
  xsize (draw_span x0 y0 a b ink im sp) = xsize im
  /\ ysize (draw_span x0 y0 a b ink im sp) = ysize im.
Proof.
  unfold draw_span. destruct (span_hline _ _ _ _ _) as [[??]?].
  apply hline32_size.
Qed.

Lemma draw_spans_size x0 y0 a b ink sps im :
  xsize (foldl (draw_span x0 y0 a b ink) im sps) = xsize im
  /\ ysize (foldl (draw_span x0 y0 a b ink) im sps) = ysize im.
Proof.
  revert im. induction sps as [|sp sps IH]; intros im; simpl; [done|].
  destruct (IH (draw_span x0 y0 a b ink im sp)) as [-> ->].
  apply draw_span_size.
Qed.

(** A whole sequence of runs, seen from any pixel. *)
Lemma getpixel_draw_spans x0 y0 a b ink sps im x y :
  getpixel (foldl (draw_span x0 y0 a b ink) im sps) x y
  = paint ink (existsb (span_hits (xsize im) (ysize im) x0 y0 a b x y) sps)
      <$> getpixel im x y.
Proof.
  revert im. induction sps as [|sp sps IH]; intros im; simpl.
  - by rewrite paint_miss.
  - rewrite IH.
    destruct (draw_span_size x0 y0 a b ink im sp) as [-> ->].
    unfold draw_span at 1, span_hits at 2.
    destruct (span_hline _ _ _ _ _) as [[l yl] r].
    by rewrite getpixel_hline32, paint_twice.
Qed.

(** The drawing loop stores exactly the runs of its trace, in order. *)
Lemma ellipse_loop_trace x0 y0 a b ink fuel s sps im :
  ellipse_trace fuel s = Some sps ->
  ellipse_loop fuel x0 y0 a b ink s im
  = Some (foldl (draw_span x0 y0 a b ink) im sps).
Proof.
  revert s sps im. induction fuel as [|fuel IH]; intros s sps im; [done|].
  cbn [ellipse_trace ellipse_loop].
  destruct (ellipse_next (S fuel) s) as [[[sp|] s']|]; try done.
  - destruct (ellipse_trace fuel s') as [sps'|] eqn:Htr; [|done].
    intros [= <-]. by rewrite (IH _ _ _ Htr).
  - by intros [= <-].
Qed.

Lemma getpixel_fill w h ink x y :
  getpixel (fill w h ink) x y
  = if (0 <=? x) && (x <? w) && (0 <=? y) && (y <? h)
    then Some ink else None.
Proof.
  unfold getpixel, fill; simpl.
  destruct (0 <=? x) eqn:Hx, (0 <=? y) eqn:Hy; simpl;
    try by rewrite ?andb_false_r.
  apply Z.leb_le in Hx. apply Z.leb_le in Hy.
  destruct (y <? h) eqn:Hyh.
  - apply Z.ltb_lt in Hyh.
    rewrite lookup_replicate_2 by lia. simpl.
    destruct (x <? w) eqn:Hxw; simpl.
    + apply Z.ltb_lt in Hxw. by rewrite lookup_replicate_2 by lia.
    + apply Z.ltb_ge in Hxw. apply lookup_replicate_None. lia.
  - apply Z.ltb_ge in Hyh. rewrite andb_false_r.
    assert (replicate (Z.to_nat h) (replicate (Z.to_nat w) ink)
              !! Z.to_nat y = None) as ->; [|done].
    apply lookup_replicate_None. lia.
Qed.

End ImagingFacts.

(** ** The script, statement by statement *)

Module ScriptFacts.

Import Imaging ImagingFacts Py Logo.

Lemma bind_ok {A B} (m : M A) (k : A -> M B) w a w' :
  m w = (Ok a, w') -> bind m k w = k a w'.
Proof. unfold bind. by intros ->. Qed.

Lemma bind_raise {A B} (m : M A) (k : A -> M B) w e w' :
  m w = (Raise e, w') -> bind m k w = (Raise e, w').
Proof. unfold bind. by intros ->. Qed.

Lemma getrgb_blue : ImageColor.getrgb "#3B82F6" = Some blue.
Proof. reflexivity. Qed.

Lemma getrgb_yellow : ImageColor.getrgb "#EAB308" = Some yellow.
Proof. reflexivity. Qed.

(** The scan converter finishes within its budget, with the runs [spans]. *)
Lemma script_trace :
  ellipse_trace (ellipse_fuel 100 100) (ellipse_init 100 100 200) = Some spans.
Proof. vm_compute. reflexivity. Qed.

Lemma ellipseNew_drawn im :
  ellipseNew im 50 50 150 150 yellow true 1 = Some (drawn im).
Proof.
  unfold ellipseNew.
  change (150 - 50) with 100. change (100 + 100) with 200.
  change ((100 <? 0) || (100 <? 0)) with false. cbv iota.
  apply ellipse_loop_trace, script_trace.
Qed.

Lemma getpixel_drawn im x y :
  xsize im = 200 -> ysize im = 200 ->
  getpixel (drawn im) x y = paint yellow (written x y) <$> getpixel im x y.
Proof.
  intros Hx Hy. unfold drawn, written.
  by rewrite getpixel_draw_spans, Hx, Hy.
Qed.

Lemma drawn_size im :
  xsize (drawn im) = xsize im /\ ysize (drawn im) = ysize im.
Proof. apply draw_spans_size. Qed.

Lemma new_canvas host w :
  Image.new host "RGB" (200, 200) "#3B82F6" w
  = if alloc_ok host 200 200
    then (Ok (length (heap w)), with_heap w (heap w ++ [canvas]))
    else (Raise MemoryError, w).
Proof.
  unfold Image.new.
  change ((200 <? 0) || (200 <? 0)) with false. cbv iota.
  unfold Image.getcolor. rewrite getrgb_blue.
  unfold of_option, bind, ret.
  change (negb ("RGB" =? "RGB")%string) with false. cbv iota.
  by destruct (alloc_ok host 200 200).
Qed.

Lemma Draw_spec img w im :
  heap w !! img = Some im ->
  ImageDraw.Draw img w = (Ok (ImageDraw.mkDraw img white false), w).
Proof.
  intros H. unfold ImageDraw.Draw, bind, deref. by rewrite H.
Qed.

Lemma draw_call_spec d w im :
  heap w !! ImageDraw.im d = Some im ->
  draw_call d w
  = (Ok tt, with_heap w (<[ImageDraw.im d := drawn im]> (heap w))).
Proof.
  intros H. unfold draw_call, ImageDraw.ellipse, ImageDraw._getink.
  unfold Image.getcolor. rewrite getrgb_yellow.
  unfold ImageDraw.draw_ellipse, of_option, deref, assign, bind, ret.
  change (150 <? 50) with false. cbv beta iota.
  rewrite H. by rewrite ellipseNew_drawn.
Qed.

Lemma save_spec host img fp w im :
  heap w !! img = Some im ->
  Image.save host img fp w
  = match write_fault host fp (fs w) with
    | Some (e, fs') =>
        (Raise (OSError e fp),
         mkWorld (heap w) fs' (stdout w) (stderr w) (log w))
    | None =>
        (Ok tt,
         mkWorld (heap w) (<[fp := PNG im]> (fs w)) (stdout w) (stderr w)
                 (log w ++ [Written fp (PNG im)]))
    end.
Proof. intros H. unfold Image.save, bind, deref. by rewrite H. Qed.

(** The whole process, for every host and every file system. *)
Lemma run_spec host files :
  Script.run host files
  = if alloc_ok host 200 200 then
      match write_fault host path files with
      | None => Some (0, success_world files)
      | Some (e, fs') =>
          Some (1, mkWorld [logo] fs' [] [Traceback (OSError e path)] [])
      end
    else Some (1, mkWorld [] files [] [Traceback MemoryError] []).
Proof.
  unfold Script.run, Script.main.
  pose proof (new_canvas host (Script.boot files)) as Hnew.
  destruct (alloc_ok host 200 200).
  - rewrite (bind_ok _ _ _ _ _ Hnew).
    change (length (heap (Script.boot files))) with 0%nat.
    set (w1 := with_heap _ _).
    assert (heap w1 !! 0%nat = Some canvas) as Hcanvas by done.
    rewrite (bind_ok _ _ _ _ _ (Draw_spec _ _ _ Hcanvas)).
    fold path message.
    pose proof (draw_call_spec (ImageDraw.mkDraw 0%nat white false) w1 canvas Hcanvas)
      as Hdraw.
    unfold draw_call in Hdraw. rewrite (bind_ok _ _ _ _ _ Hdraw).
    set (w2 := with_heap _ _).
    assert (heap w2 !! 0%nat = Some logo) as Hlogo by done.
    pose proof (save_spec host 0%nat path w2 logo Hlogo) as Hsave.
    change (fs w2) with files in Hsave.
    destruct (write_fault host path files) as [[e fs']|].
    + by rewrite (bind_raise _ _ _ _ _ Hsave).
    + by rewrite (bind_ok _ _ _ _ _ Hsave).
  - by rewrite (bind_raise _ _ _ _ _ Hnew).
Qed.

End ScriptFacts.

(** ** Which pixels the drawing call stores to *)

Module PixelFacts.

Import Imaging ImagingFacts Py Logo ScriptFacts.

Lemma written_centre : written 100 100 = true.
Proof. vm_compute. reflexivity. Qed.

Lemma spans_in_box : forallb span_in_box spans = true.
Proof. vm_compute. reflexivity. Qed.

Lemma span_in_box_spec sp l y r :
  sp ∈ spans -> span_hline 50 50 100 100 sp = (l, y, r) ->
  50 <= l /\ l <= r /\ r <= 150 /\ 50 <= y <= 150.
Proof.
  intros Hin Hsp. pose proof spans_in_box as Hall.
  rewrite forallb_forall in Hall.
  apply list_elem_of_In, Hall in Hin. unfold span_in_box in Hin.
  rewrite Hsp in Hin.
  repeat (apply andb_true_iff in Hin as [Hin ?]). lia.
Qed.

(** A run inside the raster passes the clipping of [hline32] unchanged. *)
Lemma hline_clip_inside xs ys l y r :
  0 <= l -> l <= r -> r < xs -> 0 <= y < ys ->
  hline_clip xs ys l y r = Some (l, r).
Proof.
  intros Hl Hlr Hr Hy. unfold hline_clip.
  assert ((0 <=? y) && (y <? ys) = true) as ->.
  { apply andb_true_iff. split; [apply Z.leb_le|apply Z.ltb_lt]; lia. }
  assert ((r <? l) = false) as -> by (apply Z.ltb_ge; lia).
  assert ((xs <=? l) = false) as -> by (apply Z.leb_gt; lia).
  assert ((r <? 0) = false) as -> by (apply Z.ltb_ge; lia).
  assert ((xs <=? r) = false) as -> by (apply Z.leb_gt; lia).
  f_equal. f_equal. lia.
Qed.

Lemma span_hits_spec sp l yl r x y :
  sp ∈ spans -> span_hline 50 50 100 100 sp = (l, yl, r) ->
  span_hits 200 200 50 50 100 100 x y sp = true <-> y = yl /\ l <= x <= r.
Proof.
  intros Hin Hsp. unfold span_hits. rewrite Hsp.
  destruct (span_in_box_spec _ _ _ _ Hin Hsp) as (? & ? & ? & ?).
  rewrite hline_clip_inside by lia. unfold in_run.
  rewrite !andb_true_iff, Z.eqb_eq, !Z.leb_le. tauto.
Qed.

Lemma written_in_box x y :
  written x y = true -> 50 <= x <= 150 /\ 50 <= y <= 150.
Proof.
  unfold written. rewrite existsb_exists. intros (sp & Hin & Hhit).
  apply list_elem_of_In in Hin.
  destruct (span_hline 50 50 100 100 sp) as [[l yl] r] eqn:Hsp.
  destruct (proj1 (span_hits_spec _ _ _ _ x y Hin Hsp) Hhit) as [Hy ?].
  destruct (span_in_box_spec _ _ _ _ Hin Hsp) as (? & ? & ? & ?). lia.
Qed.

Lemma written_iff_store x y :
  written x y = true <-> (x, y) ∈ store_addresses.
Proof.
  unfold written, store_addresses.
  rewrite existsb_exists, list_elem_of_bind. split.
  - intros (sp & Hin & Hhit). apply list_elem_of_In in Hin.
    exists sp. split; [|done].
    destruct (span_hline 50 50 100 100 sp) as [[l yl] r] eqn:Hsp.
    destruct (proj1 (span_hits_spec _ _ _ _ x y Hin Hsp) Hhit) as [Hy ?].
    unfold stores. apply list_elem_of_fmap. exists x. split; [by rewrite Hy|].
    apply elem_of_seqZ. lia.
  - intros (sp & Hst & Hin). exists sp. split; [by apply list_elem_of_In|].
    destruct (span_hline 50 50 100 100 sp) as [[l yl] r] eqn:Hsp.
    apply (span_hits_spec _ _ _ _ _ _ Hin Hsp).
    unfold stores in Hst. apply list_elem_of_fmap in Hst as (x' & [= -> ->] & Hx).
    apply elem_of_seqZ in Hx. lia.
Qed.

Lemma box_all_spec (P : Z -> Z -> bool) x y :
  box_all P = true -> 50 <= x <= 150 -> 50 <= y <= 150 -> P x y = true.
Proof.
  unfold box_all. rewrite forallb_forall. intros Hall Hx Hy.
  specialize (Hall y). rewrite forallb_forall in Hall.
  apply Hall; apply list_elem_of_In, elem_of_seqZ; lia.
Qed.

Lemma runs_spans : runs = span_hline 50 50 100 100 <$> spans.
Proof. vm_compute. reflexivity. Qed.

(** No run is clipped, so a pixel is stored to when it lies on a run. *)
Lemma written_on_run x y : written x y = existsb (on_run x y) runs.
Proof.
  apply eq_true_iff_eq. unfold written. rewrite runs_spans, !existsb_exists.
  split.
  - intros (sp & Hin & Hhit). exists (span_hline 50 50 100 100 sp).
    split; [by apply in_map|]. apply list_elem_of_In in Hin.
    destruct (span_hline 50 50 100 100 sp) as [[l yl] r] eqn:Hsp.
    destruct (proj1 (span_hits_spec _ _ _ _ x y Hin Hsp) Hhit) as [Hy ?].
    unfold on_run. rewrite !andb_true_iff, Z.eqb_eq, !Z.leb_le. lia.
  - intros (run & Hin & Hon). apply in_map_iff in Hin as (sp & <- & Hin).
    exists sp. split; [done|]. apply list_elem_of_In in Hin.
    destruct (span_hline 50 50 100 100 sp) as [[l yl] r] eqn:Hsp.
    apply (span_hits_spec _ _ _ _ x y Hin Hsp).
    unfold on_run in Hon. rewrite !andb_true_iff, Z.eqb_eq, !Z.leb_le in Hon.
    lia.
Qed.

Lemma grid_check :
  box_all (fun x y => implb (within_grid x y) (existsb (on_run x y) runs))
  = true.
Proof. vm_compute. reflexivity. Qed.

Lemma inclusive_check :
  box_all (fun x y => implb (existsb (on_run x y) runs) (within_inclusive x y))
  = true.
Proof. vm_compute. reflexivity. Qed.

Lemma within_grid_in_box x y :
  within_grid x y = true -> 50 <= x <= 150 /\ 50 <= y <= 150.
Proof.
  unfold within_grid, in_ellipse. rewrite Z.leb_le.
  change ((150 - 50) ^ 2) with 10000. intros H. nia.
Qed.

(** Every pixel of the disc of radius 50 about (100, 100) is stored to. *)
Lemma within_grid_written x y : within_grid x y = true -> written x y = true.
Proof.
  intros Hin. destruct (within_grid_in_box x y Hin) as [Hx Hy].
  pose proof (box_all_spec _ x y grid_check Hx Hy) as H. cbv beta in H.
  rewrite Hin in H. by rewrite written_on_run.
Qed.

(** Every pixel stored to lies in the ellipse inscribed in the box of the
    pixels 50 to 150. *)
Lemma written_within_inclusive x y :
  written x y = true -> within_inclusive x y = true.
Proof.
  intros Hw. destruct (written_in_box x y Hw) as [Hx Hy].
  pose proof (box_all_spec _ x y inclusive_check Hx Hy) as H. cbv beta in H.
  by rewrite <- written_on_run, Hw in H.
Qed.

Lemma getpixel_canvas x y :
  0 <= x < 200 -> 0 <= y < 200 -> getpixel canvas x y = Some blue.
Proof.
  intros Hx Hy. unfold canvas. rewrite getpixel_fill.
  assert ((0 <=? x) && (x <? 200) && (0 <=? y) && (y <? 200) = true) as ->;
    [|done].
  rewrite !andb_true_iff, !Z.leb_le, !Z.ltb_lt. lia.
Qed.

Lemma getpixel_logo x y :
  0 <= x < 200 -> 0 <= y < 200 ->
  getpixel logo x y = Some (paint yellow (written x y) blue).
Proof.
  intros Hx Hy. unfold logo.
  rewrite getpixel_drawn by done. by rewrite getpixel_canvas.
Qed.

Lemma produces_logo host files :
  alloc_ok host 200 200 = true -> produces host files logo.
Proof.
  intros Halloc. unfold produces. rewrite run_spec, Halloc.
  destruct (write_fault host path files) as [[e fs']|].
  - by eexists _, _.
  - eexists _, _. split; [done|]. split; [done|]. intros _.
    apply lookup_insert_eq.
Qed.

Lemma produces_inj host files im1 im2 :
  produces host files im1 -> produces host files im2 -> im1 = im2.
Proof.
  intros (st1 & w1 & Hr1 & Hh1 & _) (st2 & w2 & Hr2 & Hh2 & _).
  rewrite Hr1 in Hr2. injection Hr2 as _ <-. congruence.
Qed.

End PixelFacts.

(** ** The claims of the specification *)

Import Imaging ImagingFacts Py Logo ScriptFacts PixelFacts.

(** C2. Allocating the canvas with width 200, height 200, mode RGB and fill
    colour #3B82F6 gives a new object that is a 200x200 raster: 200 rows of
    200 pixels, every one of them (59, 130, 246). *)
Theorem new_canvas_blue (host : Host) (w : World) :
  alloc_ok host 200 200 = true ->
  exists img im,
    Image.new host "RGB" (200, 200) "#3B82F6" w
    = (Ok img, with_heap w (heap w ++ [im]))
    /\ (heap w ++ [im])%list !! img = Some im
    /\ xsize im = 200 /\ ysize im = 200
    /\ length (image32 im) = 200%nat
    /\ Forall (fun row => length row = 200%nat
                          /\ Forall (fun c => c = (59, 130, 246)) row)
              (image32 im)
    /\ forall x y, 0 <= x < 200 -> 0 <= y < 200 ->
         getpixel im x y = Some (59, 130, 246).
Proof.
  intros Halloc. exists (length (heap w)), canvas.
  rewrite new_canvas, Halloc.
  split; [done|]. split; [by apply list_lookup_middle|].
  split; [done|]. split; [done|].
  split; [apply length_replicate|].
  split; [|apply getpixel_canvas].
  apply Forall_replicate. split; [apply length_replicate|].
  by apply Forall_replicate.
Qed.

Lemma new_canvas_blue_witness :
  exists img im,
    Image.new willing "RGB" (200, 200) "#3B82F6" (Script.boot ∅)
    = (Ok img, with_heap (Script.boot ∅) (heap (Script.boot ∅) ++ [im]))
    /\ (heap (Script.boot ∅) ++ [im])%list !! img = Some im
    /\ xsize im = 200 /\ ysize im = 200
    /\ length (image32 im) = 200%nat
    /\ Forall (fun row => length row = 200%nat
                          /\ Forall (fun c => c = (59, 130, 246)) row)
              (image32 im)
    /\ forall x y, 0 <= x < 200 -> 0 <= y < 200 ->
         getpixel im x y = Some (59, 130, 246).
Proof. apply (new_canvas_blue willing (Script.boot ∅)). reflexivity. Defined.

(** What the drawing call leaves at a pixel of a 200x200 canvas object. *)
Lemma draw_call_pixels (w : World) (d : ImageDraw.ImageDraw) (im im' : Raster) :
  heap w !! ImageDraw.im d = Some im ->
  xsize im = 200 -> ysize im = 200 ->
  draw_call d w
  = (Ok tt, with_heap w (<[ImageDraw.im d := im']> (heap w))) ->
  forall x y,
    getpixel im' x y = paint yellow (written x y) <$> getpixel im x y.
Proof.
  intros Hd Hx Hy Hcall x y.
  rewrite (draw_call_spec d w im Hd) in Hcall.
  assert (im' = drawn im) as ->; [|by apply getpixel_drawn].
  apply (f_equal (fun p => heap (snd p) !! ImageDraw.im d)) in Hcall.
  cbn [snd heap with_heap] in Hcall.
  apply lookup_lt_Some in Hd.
  rewrite !list_lookup_insert_eq in Hcall by done. congruence.
Qed.

Lemma studio_pen : heap studio !! ImageDraw.im pen = Some canvas.
Proof. reflexivity. Qed.

Lemma canvas_size : xsize canvas = 200 /\ ysize canvas = 200.
Proof. split; reflexivity. Qed.

(** C1, as stated, fails: under each of the three readings of "the pixels
    whose centre falls within the inscribed ellipse", the pixels the drawing
    call overwrites are not exactly those.  Pixel (58, 72) has its centre
    within the ellipse inscribed in the box of the pixels 50 to 150 and is
    not overwritten; pixels (149, 110) and (150, 100) are overwritten and
    lie outside the ellipse inscribed in the square from 50 to 150, whether
    a pixel's centre is taken on the grid or half a pixel further. *)
Lemma draw_not_exact :
  ~ overwrites_exactly within_inclusive
  /\ ~ overwrites_exactly within_grid
  /\ ~ overwrites_exactly within_half.
Proof.
  assert (forall inside x y,
            0 <= x < 200 -> 0 <= y < 200 ->
            written x y <> inside x y -> ~ overwrites_exactly inside) as Hno.
  { intros inside x y Hx Hy Hdiff Hexact.
    destruct canvas_size as [Hxs Hys].
    destruct (Hexact studio pen canvas studio_pen Hxs Hys)
      as (im' & Hcall & Hpix).
    specialize (Hpix x y Hx Hy).
    rewrite (draw_call_pixels studio pen canvas im' studio_pen Hxs Hys Hcall)
      in Hpix.
    rewrite getpixel_canvas in Hpix by (split; apply Hx || apply Hy).
    clear Hcall Hexact.
    destruct (written x y), (inside x y); cbv in Hpix; congruence. }
  split; [|split].
  - apply (Hno _ 58 72); [lia|lia|]. vm_compute. discriminate.
  - apply (Hno _ 149 110); [lia|lia|]. vm_compute. discriminate.
  - apply (Hno _ 150 100); [lia|lia|]. vm_compute. discriminate.
Qed.

(** C1, amended. On a 200x200 canvas object the drawing call succeeds and
    replaces the object by a raster in which: every pixel within distance 50
    of pixel (100, 100) holds the fill colour (234, 179, 8); every pixel
    whose centre lies outside the ellipse inscribed in the box of the pixels
    50 to 150 keeps its prior value; and every pixel either keeps its prior
    value or holds the fill colour. *)
Theorem draw_ellipse_frame (w : World) (d : ImageDraw.ImageDraw) (im : Raster) :
  heap w !! ImageDraw.im d = Some im ->
  xsize im = 200 -> ysize im = 200 ->
  exists im',
    draw_call d w
    = (Ok tt, with_heap w (<[ImageDraw.im d := im']> (heap w)))
    /\ forall x y,
         (within_grid x y = true ->
          getpixel im' x y = (fun _ => (234, 179, 8)) <$> getpixel im x y)
         /\ (within_inclusive x y = false ->
             getpixel im' x y = getpixel im x y)
         /\ (getpixel im' x y = getpixel im x y
             \/ getpixel im' x y = (fun _ => (234, 179, 8)) <$> getpixel im x y).
Proof.
  intros Hd Hx Hy. exists (drawn im).
  split; [by apply draw_call_spec|]. intros x y.
  rewrite getpixel_drawn by done.
  split; [|split].
  - intros Hin. by rewrite (within_grid_written x y Hin).
  - intros Hout. destruct (written x y) eqn:Hw; [|apply paint_miss].
    apply written_within_inclusive in Hw. congruence.
  - destruct (written x y); [by right|left; apply paint_miss].
Qed.

Lemma draw_ellipse_frame_witness :
  exists im',
    draw_call pen studio
    = (Ok tt, with_heap studio (<[ImageDraw.im pen := im']> (heap studio)))
    /\ forall x y,
         (within_grid x y = true ->
          getpixel im' x y = (fun _ => (234, 179, 8)) <$> getpixel canvas x y)
         /\ (within_inclusive x y = false ->
             getpixel im' x y = getpixel canvas x y)
         /\ (getpixel im' x y = getpixel canvas x y
             \/ getpixel im' x y
                = (fun _ => (234, 179, 8)) <$> getpixel canvas x y).
Proof.
  apply (draw_ellipse_frame studio pen canvas); reflexivity.
Defined.

(** C3. In the image a run produces, the pixel at the centre (100, 100) is
    (234, 179, 8). *)
Theorem centre_pixel_yellow (host : Host) (files : gmap string file) :
  alloc_ok host 200 200 = true ->
  exists im,
    produces host files im /\ getpixel im 100 100 = Some (234, 179, 8).
Proof.
  intros Halloc. exists logo. split; [by apply produces_logo|].
  rewrite getpixel_logo by lia. by rewrite written_centre.
Qed.

Lemma centre_pixel_yellow_witness :
  exists im,
    produces willing ∅ im /\ getpixel im 100 100 = Some (234, 179, 8).
Proof. apply (centre_pixel_yellow willing ∅). reflexivity. Defined.

(** C4. In the image a run produces, every pixel of the canvas outside the
    rows and columns 50 to 150 of the circle's bounding box is
    (59, 130, 246); so are the corners (0, 0) and (199, 199). *)
Theorem outside_box_blue (host : Host) (files : gmap string file) :
  alloc_ok host 200 200 = true ->
  exists im,
    produces host files im
    /\ (forall x y, 0 <= x < 200 -> 0 <= y < 200 ->
          ~ (50 <= x <= 150 /\ 50 <= y <= 150) ->
          getpixel im x y = Some (59, 130, 246))
    /\ getpixel im 0 0 = Some (59, 130, 246)
    /\ getpixel im 199 199 = Some (59, 130, 246).
Proof.
  intros Halloc. exists logo. split; [by apply produces_logo|].
  assert (forall x y, 0 <= x < 200 -> 0 <= y < 200 ->
            ~ (50 <= x <= 150 /\ 50 <= y <= 150) ->
            getpixel logo x y = Some (59, 130, 246)) as Hout.
  { intros x y Hx Hy Hbox. rewrite getpixel_logo by done.
    destruct (written x y) eqn:Hw; [|done].
    by apply written_in_box in Hw. }
  split; [done|]. split; apply Hout; lia.
Qed.

Lemma outside_box_blue_witness :
  exists im,
    produces willing ∅ im
    /\ (forall x y, 0 <= x < 200 -> 0 <= y < 200 ->
          ~ (50 <= x <= 150 /\ 50 <= y <= 150) ->
          getpixel im x y = Some (59, 130, 246))
    /\ getpixel im 0 0 = Some (59, 130, 246)
    /\ getpixel im 199 199 = Some (59, 130, 246).
Proof. apply (outside_box_blue willing ∅). reflexivity. Defined.

(** C10. In the image a run produces, every pixel of the canvas is one of
    the two colours (59, 130, 246) and (234, 179, 8). *)
Theorem two_colours (host : Host) (files : gmap string file) :
  alloc_ok host 200 200 = true ->
  exists im,
    produces host files im
    /\ forall x y, 0 <= x < 200 -> 0 <= y < 200 ->
         getpixel im x y = Some (59, 130, 246)
         \/ getpixel im x y = Some (234, 179, 8).
Proof.
  intros Halloc. exists logo. split; [by apply produces_logo|].
  intros x y Hx Hy. rewrite getpixel_logo by done.
  destruct (written x y); [by right|by left].
Qed.

Lemma two_colours_witness :
  exists im,
    produces willing ∅ im
    /\ forall x y, 0 <= x < 200 -> 0 <= y < 200 ->
         getpixel im x y = Some (59, 130, 246)
         \/ getpixel im x y = Some (234, 179, 8).
Proof. apply (two_colours willing ∅). reflexivity. Defined.

(** A run ends with status 0 only in the world [success_world]. *)
Lemma run_success (host : Host) (files : gmap string file) (w : World) :
  Script.run host files = Some (0, w) ->
  alloc_ok host 200 200 = true
  /\ write_fault host path files = None
  /\ w = success_world files.
Proof.
  rewrite run_spec. intros Hrun.
  destruct (alloc_ok host 200 200); [|discriminate Hrun].
  destruct (write_fault host path files) as [[e fs']|]; [discriminate Hrun|].
  injection Hrun as <-. auto.
Qed.

Lemma logo_size : xsize logo = 200 /\ ysize logo = 200.
Proof.
  unfold logo. destruct (drawn_size canvas) as [-> ->]. apply canvas_size.
Qed.

Lemma getpixel_logo_defined x y :
  is_Some (getpixel logo x y) <-> 0 <= x < 200 /\ 0 <= y < 200.
Proof.
  destruct canvas_size as [Hxs Hys].
  unfold logo. rewrite (getpixel_drawn canvas x y Hxs Hys).
  unfold canvas. rewrite getpixel_fill, fmap_is_Some.
  destruct ((0 <=? x) && (x <? 200) && (0 <=? y) && (y <? 200)) eqn:Hin.
  - rewrite !andb_true_iff, !Z.leb_le, !Z.ltb_lt in Hin.
    split; [lia|]. intros _. by eexists.
  - split; [by intros [? [=]]|]. intros Hb.
    assert ((0 <=? x) && (x <? 200) && (0 <=? y) && (y <? 200) = true) as Ht.
    { rewrite !andb_true_iff, !Z.leb_le, !Z.ltb_lt. lia. }
    congruence.
Qed.

(** C5. After a run with status 0 the file test-logo.png decodes to a
    raster of width 200 and height 200, with a pixel at exactly the
    coordinates of [0,200) x [0,200). *)
Theorem saved_dimensions (host : Host) (files : gmap string file) (w : World) :
  Script.run host files = Some (0, w) ->
  exists f,
    fs w !! "test-logo.png" = Some f
    /\ xsize (decode f) = 200 /\ ysize (decode f) = 200
    /\ forall x y,
         is_Some (getpixel (decode f) x y) <-> 0 <= x < 200 /\ 0 <= y < 200.
Proof.
  intros (_ & _ & ->)%run_success. exists (PNG logo).
  split; [apply lookup_insert_eq|].
  destruct logo_size as [Hxs Hys].
  split; [exact Hxs|]. split; [exact Hys|]. apply getpixel_logo_defined.
Qed.

Lemma saved_dimensions_witness :
  exists f,
    fs (success_world ∅) !! "test-logo.png" = Some f
    /\ xsize (decode f) = 200 /\ ysize (decode f) = 200
    /\ forall x y,
         is_Some (getpixel (decode f) x y) <-> 0 <= x < 200 /\ 0 <= y < 200.
Proof.
  apply (saved_dimensions willing ∅ (success_world ∅)). reflexivity.
Defined.

(** C6. Every run ends; a run with status 0 has put exactly the one line
    "Test logo created successfully" on standard output, and its effects are,
    in order, the write of test-logo.png and then that line; a run with any
    other status has put nothing on standard output.  The status is 0
    whenever the allocation and the write go through. *)
Theorem message_after_write (host : Host) (files : gmap string file) :
  exists st w,
    Script.run host files = Some (st, w)
    /\ (st = 0 ->
        stdout w = ["Test logo created successfully"]
        /\ exists f,
             log w = [Written "test-logo.png" f;
                      Printed "Test logo created successfully"]
             /\ fs w !! "test-logo.png" = Some f)
    /\ (st <> 0 -> stdout w = [] /\ log w = [])
    /\ (alloc_ok host 200 200 = true ->
        write_fault host "test-logo.png" files = None -> st = 0).
Proof.
  rewrite run_spec. fold path.
  destruct (alloc_ok host 200 200).
  - destruct (write_fault host path files) as [[e fs']|].
    + eexists _, _. split; [reflexivity|].
      split; [discriminate|]. split; [split; reflexivity|]. discriminate.
    + eexists _, _. split; [reflexivity|].
      split; [|split; [intros H; by destruct H|reflexivity]].
      intros _. split; [reflexivity|]. exists (PNG logo).
      split; [reflexivity|]. apply lookup_insert_eq.
  - eexists _, _. split; [reflexivity|].
    split; [discriminate|]. split; [split; reflexivity|]. discriminate.
Qed.

Lemma message_after_write_witness :
  exists st w,
    Script.run willing ∅ = Some (st, w)
    /\ (st = 0 ->
        stdout w = ["Test logo created successfully"]
        /\ exists f,
             log w = [Written "test-logo.png" f;
                      Printed "Test logo created successfully"]
             /\ fs w !! "test-logo.png" = Some f)
    /\ (st <> 0 -> stdout w = [] /\ log w = [])
    /\ (alloc_ok willing 200 200 = true ->
        write_fault willing "test-logo.png" ∅ = None -> st = 0).
Proof. exact (message_after_write willing ∅). Defined.

(** C7. Every run ends with a status.  If the write of test-logo.png fails
    with an error [e], the status is 1, standard error holds the traceback of
    the [OSError] carrying [e] and the file name, and nothing was printed.
    The status is 0 exactly when the allocation and the write both go
    through. *)
Theorem write_failure_exit (host : Host) (files : gmap string file) :
  exists st w,
    Script.run host files = Some (st, w)
    /\ (st = 0 <->
        alloc_ok host 200 200 = true
        /\ write_fault host "test-logo.png" files = None)
    /\ (forall e fs',
          alloc_ok host 200 200 = true ->
          write_fault host "test-logo.png" files = Some (e, fs') ->
          st = 1
          /\ stderr w = [Traceback (OSError e "test-logo.png")]
          /\ stdout w = []
          /\ (Printed "Test logo created successfully" ∉ log w)
          /\ fs w = fs')
    /\ (alloc_ok host 200 200 = false ->
        st = 1 /\ stderr w = [Traceback MemoryError] /\ stdout w = []).
Proof.
  rewrite run_spec. fold path.
  destruct (alloc_ok host 200 200).
  - destruct (write_fault host path files) as [[e fs']|].
    + eexists _, _. split; [reflexivity|].
      split; [split; [discriminate|intros [_ [=]]]|].
      split; [|discriminate].
      intros e' fs'' _ [= <- <-].
      repeat (split; [reflexivity|]). split; [|reflexivity].
      cbn [log]. apply not_elem_of_nil.
    + eexists _, _. split; [reflexivity|].
      split; [split; auto|]. split; [|discriminate].
      intros e fs' _ [=].
  - eexists _, _. split; [reflexivity|].
    split; [split; [discriminate|intros [[=] _]]|].
    split; [intros e fs' [=]|]. intros _. repeat split.
Qed.

Lemma write_failure_exit_witness :
  exists st w,
    Script.run read_only ∅ = Some (st, w)
    /\ (st = 0 <->
        alloc_ok read_only 200 200 = true
        /\ write_fault read_only "test-logo.png" ∅ = None)
    /\ (forall e fs',
          alloc_ok read_only 200 200 = true ->
          write_fault read_only "test-logo.png" ∅ = Some (e, fs') ->
          st = 1
          /\ stderr w = [Traceback (OSError e "test-logo.png")]
          /\ stdout w = []
          /\ (Printed "Test logo created successfully" ∉ log w)
          /\ fs w = fs')
    /\ (alloc_ok read_only 200 200 = false ->
        st = 1 /\ stderr w = [Traceback MemoryError] /\ stdout w = []).
Proof. exact (write_failure_exit read_only ∅). Defined.

(** C8. Any two runs with status 0, on any hosts and over any files, leave
    the same file test-logo.png: the same raster, hence the same size and
    the same centre and corner pixels.  A second run over the files the
    first one left changes no file. *)
Theorem runs_agree (host1 host2 : Host) (files1 files2 : gmap string file)
    (w1 w2 : World) :
  Script.run host1 files1 = Some (0, w1) ->
  Script.run host2 files2 = Some (0, w2) ->
  (exists f,
     fs w1 !! "test-logo.png" = Some f /\ fs w2 !! "test-logo.png" = Some f
     /\ xsize (decode f) = 200 /\ ysize (decode f) = 200
     /\ getpixel (decode f) 100 100 = Some (234, 179, 8)
     /\ getpixel (decode f) 0 0 = Some (59, 130, 246)
     /\ getpixel (decode f) 199 199 = Some (59, 130, 246))
  /\ (files2 = fs w1 -> fs w2 = fs w1).
Proof.
  intros (_ & _ & ->)%run_success (_ & _ & ->)%run_success.
  split.
  - exists (PNG logo). cbn [fs success_world decode].
    rewrite !lookup_insert_eq. destruct logo_size as [Hxs Hys].
    split; [reflexivity|]. split; [reflexivity|].
    split; [exact Hxs|]. split; [exact Hys|].
    rewrite !getpixel_logo by lia. rewrite written_centre.
    assert (written 0 0 = false) as -> by (vm_compute; reflexivity).
    assert (written 199 199 = false) as -> by (vm_compute; reflexivity).
    repeat split.
  - intros ->. cbn [fs success_world]. apply insert_insert_eq.
Qed.

Lemma runs_agree_witness :
  (exists f,
     fs (success_world ∅) !! "test-logo.png" = Some f
     /\ fs (success_world (fs (success_world ∅))) !! "test-logo.png" = Some f
     /\ xsize (decode f) = 200 /\ ysize (decode f) = 200
     /\ getpixel (decode f) 100 100 = Some (234, 179, 8)
     /\ getpixel (decode f) 0 0 = Some (59, 130, 246)
     /\ getpixel (decode f) 199 199 = Some (59, 130, 246))
  /\ (fs (success_world ∅) = fs (success_world ∅) ->
      fs (success_world (fs (success_world ∅))) = fs (success_world ∅)).
Proof.
  apply (runs_agree willing willing ∅ (fs (success_world ∅))
           (success_world ∅) (success_world (fs (success_world ∅))));
    reflexivity.
Defined.

(** C9. The scan converter finishes and the drawing call stores its runs,
    none of which the clipping of [hline] has to cut: every run lies in the
    rows and columns 50 to 150, so every store address lies within
    [0,200) x [0,200), and a pixel changes only at a store address. *)
Theorem ellipse_stores_in_bounds :
  (forall im, ellipseNew im 50 50 150 150 (234, 179, 8) true 1 = Some (drawn im))
  /\ (forall sp l y r,
        sp ∈ spans -> span_hline 50 50 100 100 sp = (l, y, r) ->
        hline_clip 200 200 l y r = Some (l, r)
        /\ 50 <= l /\ l <= r /\ r <= 150 /\ 50 <= y <= 150)
  /\ (forall x y,
        (x, y) ∈ store_addresses -> 0 <= x < 200 /\ 0 <= y < 200)
  /\ (forall im x y,
        xsize im = 200 -> ysize im = 200 ->
        getpixel (drawn im) x y <> getpixel im x y ->
        (x, y) ∈ store_addresses).
Proof.
  split; [exact ellipseNew_drawn|]. split; [|split].
  - intros sp l y r Hin Hsp.
    destruct (span_in_box_spec sp l y r Hin Hsp) as (? & ? & ? & ?).
    split; [apply hline_clip_inside; lia|lia].
  - intros x y Hst%written_iff_store%written_in_box. lia.
  - intros im x y Hxs Hys Hch. apply written_iff_store.
    rewrite getpixel_drawn in Hch by assumption.
    destruct (written x y); [reflexivity|].
    by rewrite paint_miss in Hch.
Qed.

Lemma ellipse_stores_in_bounds_witness :
  (100, 100) ∈ store_addresses /\ 0 <= 100 < 200 /\ 0 <= 100 < 200.
Proof.
  assert ((100, 100) ∈ store_addresses) as Hin.
  { apply (bool_decide_unpack _). vm_compute. exact I. }
  split; [exact Hin|].
  exact (proj1 (proj2 (proj2 ellipse_stores_in_bounds)) 100 100 Hin).
Defined.

(** ** Further properties of the script *)

Module MoreFacts.

Import Imaging ImagingFacts Py Logo ScriptFacts PixelFacts.

(** Clipping only ever shortens a run. *)
Lemma hline_clip_within xs ys x0 y0 x1 l r :
  hline_clip xs ys x0 y0 x1 = Some (l, r) ->
  Z.min x0 x1 <= l /\ r <= Z.max x0 x1.
Proof.
  unfold hline_clip. intros H.
  destruct ((0 <=? y0) && (y0 <? ys)); [|discriminate H].
  destruct (x1 <? x0) eqn:Hsw;
    [apply Z.ltb_lt in Hsw|apply Z.ltb_ge in Hsw].
  - destruct (xs <=? x1); [discriminate H|].
    destruct (x0 <? 0); [discriminate H|].
    destruct (xs <=? x0) eqn:Hc; injection H as <- <-;
      [apply Z.leb_le in Hc|]; lia.
  - destruct (xs <=? x0); [discriminate H|].
    destruct (x1 <? 0); [discriminate H|].
    destruct (xs <=? x1) eqn:Hc; injection H as <- <-;
      [apply Z.leb_le in Hc|]; lia.
Qed.

(** On a raster of any size, a store of the drawing call falls in the rows
    and columns 50 to 150. *)
Lemma hits_in_box xs ys x y :
  existsb (span_hits xs ys 50 50 100 100 x y) spans = true ->
  50 <= x <= 150 /\ 50 <= y <= 150.
Proof.
  rewrite existsb_exists. intros (sp & Hin & Hhit).
  apply list_elem_of_In in Hin. unfold span_hits in Hhit.
  destruct (span_hline 50 50 100 100 sp) as [[l yl] r] eqn:Hsp.
  destruct (span_in_box_spec sp l yl r Hin Hsp) as (? & ? & ? & ?).
  destruct (hline_clip xs ys l yl r) as [[l' r']|] eqn:Hclip;
    [|discriminate Hhit].
  apply hline_clip_within in Hclip. unfold in_run in Hhit.
  rewrite !andb_true_iff, Z.eqb_eq, !Z.leb_le in Hhit. lia.
Qed.

Lemma getpixel_drawn_any im x y :
  getpixel (drawn im) x y
  = paint yellow
      (existsb (span_hits (xsize im) (ysize im) 50 50 100 100 x y) spans)
      <$> getpixel im x y.
Proof. apply getpixel_draw_spans. Qed.

Lemma written_outside x y :
  ~ (50 <= x <= 150 /\ 50 <= y <= 150) -> written x y = false.
Proof.
  intros Hout. destruct (written x y) eqn:Hw; [|reflexivity].
  by apply written_in_box in Hw.
Qed.

(** A symmetry of the box that a check of its pixels confirms is a symmetry
    of the set of pixels stored to. *)
Lemma written_symmetry (tx ty : Z -> Z -> Z) :
  (forall x y, 50 <= x <= 150 /\ 50 <= y <= 150 <->
               50 <= tx x y <= 150 /\ 50 <= ty x y <= 150) ->
  box_all (fun x y => Bool.eqb (existsb (on_run x y) runs)
                        (existsb (on_run (tx x y) (ty x y)) runs)) = true ->
  forall x y, written x y = written (tx x y) (ty x y).
Proof.
  intros Hbox Hcheck x y.
  destruct (decide (50 <= x <= 150 /\ 50 <= y <= 150)) as [[Hx Hy]|Hout].
  - pose proof (box_all_spec _ x y Hcheck Hx Hy) as H. cbv beta in H.
    apply Bool.eqb_prop in H. by rewrite !written_on_run.
  - rewrite (written_outside x y Hout). symmetry. apply written_outside.
    by rewrite <- Hbox.
Qed.

Lemma written_mirror_columns x y : written x y = written (200 - x) y.
Proof.
  apply (written_symmetry (fun x _ => 200 - x) (fun _ y => y)); [lia|].
  vm_compute. reflexivity.
Qed.

Lemma written_mirror_rows x y : written x y = written x (200 - y).
Proof.
  apply (written_symmetry (fun x _ => x) (fun _ y => 200 - y)); [lia|].
  vm_compute. reflexivity.
Qed.

Lemma written_transpose x y : written x y = written y x.
Proof.
  apply (written_symmetry (fun _ y => y) (fun x _ => x)); [lia|].
  vm_compute. reflexivity.
Qed.

(** Every run reaches column 100 or starts right after it, and column 100
    of its row is stored to. *)
Lemma runs_reach_centre :
  forallb (fun run : Z * Z * Z =>
             let '(l, yl, r) := run in
             (l <=? 101) && (100 <=? r) && existsb (on_run 100 yl) runs)
          runs = true.
Proof. vm_compute. reflexivity. Qed.

(** Within a row, the pixels stored to reach from column 100 outwards. *)
Lemma written_row_solid x x' y :
  written x y = true -> x <= x' <= 100 \/ 100 <= x' <= x ->
  written x' y = true.
Proof.
  rewrite !written_on_run. intros Hw Hbetween.
  apply existsb_exists in Hw as ([[l yl] r] & Hin & Hon).
  pose proof runs_reach_centre as Hall. rewrite forallb_forall in Hall.
  specialize (Hall _ Hin). cbv beta iota in Hall.
  unfold on_run in Hon.
  rewrite !andb_true_iff, Z.eqb_eq, !Z.leb_le in Hon.
  rewrite !andb_true_iff, !Z.leb_le in Hall.
  destruct Hon as [[-> Hl] Hr]. destruct Hall as [[Hl' Hr'] Hc].
  destruct (decide (l <= x' <= r)) as [Hx'|Hx'].
  - apply existsb_exists. exists (l, yl, r). split; [done|].
    unfold on_run. rewrite !andb_true_iff, Z.eqb_eq, !Z.leb_le. lia.
  - assert (x' = 100) as -> by lia. exact Hc.
Qed.

Lemma written_column_solid x y y' :
  written x y = true -> y <= y' <= 100 \/ 100 <= y' <= y ->
  written x y' = true.
Proof.
  rewrite (written_transpose x y), (written_transpose x y').
  apply written_row_solid.
Qed.

Lemma yellow_written x y :
  0 <= x < 200 -> 0 <= y < 200 ->
  getpixel logo x y = Some yellow <-> written x y = true.
Proof.
  intros Hx Hy. rewrite getpixel_logo by done.
  destruct (written x y); cbv; split; congruence.
Qed.

End MoreFacts.

Import MoreFacts.

(** X1. A run with status 0 creates or replaces test-logo.png and touches
    no other file: every other name looks up as before, and the names
    present afterwards are the old ones and test-logo.png. *)
Theorem other_files_untouched (host : Host) (files : gmap string file)
    (w : World) :
  Script.run host files = Some (0, w) ->
  (forall p, p <> "test-logo.png" -> fs w !! p = files !! p)
  /\ dom (fs w) = {["test-logo.png"]} ∪ dom files.
Proof.
  intros (_ & _ & ->)%run_success. cbn [fs success_world]. split.
  - intros p Hp. apply lookup_insert_ne. unfold path. congruence.
  - apply dom_insert_L.
Qed.

Lemma other_files_untouched_witness :
  (forall p, p <> "test-logo.png" ->
     fs (success_world {["notes.txt" := PNG canvas]}) !! p
     = ({["notes.txt" := PNG canvas]} : gmap string file) !! p)
  /\ dom (fs (success_world {["notes.txt" := PNG canvas]}))
     = {["test-logo.png"]} ∪ dom ({["notes.txt" := PNG canvas]} : gmap string file).
Proof.
  apply (other_files_untouched willing {["notes.txt" := PNG canvas]}
           (success_world {["notes.txt" := PNG canvas]})).
  reflexivity.
Defined.

(** X2. When the canvas cannot be allocated the run ends with status 1
    before anything else happens: no object exists, no file is created or
    changed, nothing is printed and no effect is logged. *)
Theorem failed_allocation_leaves_files (host : Host)
    (files : gmap string file) :
  alloc_ok host 200 200 = false ->
  exists w,
    Script.run host files = Some (1, w)
    /\ fs w = files /\ heap w = [] /\ stdout w = [] /\ log w = [].
Proof.
  intros Halloc. rewrite run_spec, Halloc. eexists. repeat split.
Qed.

Lemma failed_allocation_leaves_files_witness :
  exists w,
    Script.run (mkHost (fun _ _ => false) (fun _ _ => None)) ∅ = Some (1, w)
    /\ fs w = ∅ /\ heap w = [] /\ stdout w = [] /\ log w = [].
Proof.
  apply (failed_allocation_leaves_files
           (mkHost (fun _ _ => false) (fun _ _ => None)) ∅).
  reflexivity.
Defined.

(** X3. The drawing handle shares the image it was made for.  For any image
    object [r], making the handle changes nothing, and drawing through it
    replaces the raster of [r] itself, so a later read of [r] sees the
    drawing; every other object, the files, both streams and the effect log
    stay as they were. *)
Theorem draw_through_handle (w : World) (r : ref) (im : Raster) :
  heap w !! r = Some im ->
  exists d w',
    ImageDraw.Draw r w = (Ok d, w)
    /\ draw_call d w = (Ok tt, w')
    /\ deref r w' = (Ok (drawn im), w')
    /\ (forall r', r' <> r -> heap w' !! r' = heap w !! r')
    /\ length (heap w') = length (heap w)
    /\ fs w' = fs w /\ stdout w' = stdout w /\ stderr w' = stderr w
    /\ log w' = log w.
Proof.
  intros Hr. exists (ImageDraw.mkDraw r white false).
  exists (with_heap w (<[r := drawn im]> (heap w))).
  split; [by apply (Draw_spec r w im)|].
  split; [by apply (draw_call_spec (ImageDraw.mkDraw r white false) w im)|].
  split.
  - unfold deref. cbn [heap with_heap].
    rewrite list_lookup_insert_eq; [reflexivity|].
    by apply lookup_lt_Some in Hr.
  - split; [|split; [apply length_insert|repeat split]].
    intros r' Hne. cbn [heap with_heap]. apply list_lookup_insert_ne. congruence.
Qed.

Lemma draw_through_handle_witness :
  exists d w',
    ImageDraw.Draw 0%nat studio = (Ok d, studio)
    /\ draw_call d studio = (Ok tt, w')
    /\ deref 0%nat w' = (Ok (drawn canvas), w')
    /\ (forall r', r' <> 0%nat -> heap w' !! r' = heap studio !! r')
    /\ length (heap w') = length (heap studio)
    /\ fs w' = fs studio /\ stdout w' = stdout studio
    /\ stderr w' = stderr studio /\ log w' = log studio.
Proof. apply (draw_through_handle studio 0%nat canvas). reflexivity. Defined.

(** X4. The drawing call needs no canvas of a particular size.  On an image
    object of any width and height it succeeds, keeps the width and the
    height, keeps which coordinates hold a pixel, and at every coordinate
    either leaves the pixel as it was or, within the rows and columns 50 to
    150 only, sets it to (234, 179, 8). *)
Theorem draw_on_any_canvas (w : World) (d : ImageDraw.ImageDraw) (im : Raster) :
  heap w !! ImageDraw.im d = Some im ->
  exists im',
    draw_call d w
    = (Ok tt, with_heap w (<[ImageDraw.im d := im']> (heap w)))
    /\ xsize im' = xsize im /\ ysize im' = ysize im
    /\ forall x y,
         (is_Some (getpixel im' x y) <-> is_Some (getpixel im x y))
         /\ (getpixel im' x y = getpixel im x y
             \/ (50 <= x <= 150 /\ 50 <= y <= 150)
                /\ getpixel im' x y = Some (234, 179, 8)).
Proof.
  intros Hd. exists (drawn im). split; [by apply draw_call_spec|].
  destruct (drawn_size im) as [Hxs Hys].
  split; [exact Hxs|]. split; [exact Hys|].
  intros x y. rewrite getpixel_drawn_any. split; [apply fmap_is_Some|].
  destruct (existsb _ spans) eqn:Hhit; [|left; apply paint_miss].
  destruct (getpixel im x y) as [c|]; [right|by left].
  split; [by apply hits_in_box in Hhit|reflexivity].
Qed.

Lemma draw_on_any_canvas_witness :
  exists im',
    draw_call pen (mkWorld [fill 120 60 blue] ∅ [] [] [])
    = (Ok tt, with_heap (mkWorld [fill 120 60 blue] ∅ [] [] [])
                (<[ImageDraw.im pen := im']> [fill 120 60 blue]))
    /\ xsize im' = xsize (fill 120 60 blue)
    /\ ysize im' = ysize (fill 120 60 blue)
    /\ forall x y,
         (is_Some (getpixel im' x y)
          <-> is_Some (getpixel (fill 120 60 blue) x y))
         /\ (getpixel im' x y = getpixel (fill 120 60 blue) x y
             \/ (50 <= x <= 150 /\ 50 <= y <= 150)
                /\ getpixel im' x y = Some (234, 179, 8)).
Proof.
  apply (draw_on_any_canvas (mkWorld [fill 120 60 blue] ∅ [] [] []) pen
           (fill 120 60 blue)).
  reflexivity.
Defined.

(** X5. The image a run produces is symmetric about column 100, about row
    100 and about the diagonal: mirroring a coordinate in 100, or swapping
    the two coordinates, gives a pixel of the same colour. *)
Theorem circle_symmetric (host : Host) (files : gmap string file) :
  alloc_ok host 200 200 = true ->
  exists im,
    produces host files im
    /\ forall x y, 0 < x < 200 -> 0 < y < 200 ->
         getpixel im (200 - x) y = getpixel im x y
         /\ getpixel im x (200 - y) = getpixel im x y
         /\ getpixel im y x = getpixel im x y.
Proof.
  intros Halloc. exists logo. split; [by apply produces_logo|].
  intros x y Hx Hy. rewrite !getpixel_logo by lia.
  rewrite <- written_mirror_columns, <- written_mirror_rows.
  by rewrite <- written_transpose.
Qed.

Lemma circle_symmetric_witness :
  exists im,
    produces willing ∅ im
    /\ forall x y, 0 < x < 200 -> 0 < y < 200 ->
         getpixel im (200 - x) y = getpixel im x y
         /\ getpixel im x (200 - y) = getpixel im x y
         /\ getpixel im y x = getpixel im x y.
Proof. apply (circle_symmetric willing ∅). reflexivity. Defined.

(** X6. In the image a run produces the circle is 101 pixels across: on row
    100 the pixels of the fill colour are exactly those of the columns 50 to
    150, and on column 100 exactly those of the rows 50 to 150.  The circle
    is centred on pixel (100, 100), with 50 pixels of background before it
    and 49 after it. *)
Theorem circle_extent (host : Host) (files : gmap string file) :
  alloc_ok host 200 200 = true ->
  exists im,
    produces host files im
    /\ forall t, 0 <= t < 200 ->
         (getpixel im t 100 = Some (234, 179, 8) <-> 50 <= t <= 150)
         /\ (getpixel im 100 t = Some (234, 179, 8) <-> 50 <= t <= 150).
Proof.
  intros Halloc. exists logo. split; [by apply produces_logo|].
  assert (forall t, written t 100 = true <-> 50 <= t <= 150) as Hrow.
  { intros t. split.
    - intros Hw%written_in_box. lia.
    - intros Ht. apply within_grid_written.
      unfold within_grid, in_ellipse. apply Z.leb_le.
      change ((150 - 50) ^ 2) with 10000. nia. }
  intros t Ht. change (234, 179, 8) with yellow.
  rewrite !yellow_written by lia.
  split; [apply Hrow|]. rewrite written_transpose. apply Hrow.
Qed.

Lemma circle_extent_witness :
  exists im,
    produces willing ∅ im
    /\ forall t, 0 <= t < 200 ->
         (getpixel im t 100 = Some (234, 179, 8) <-> 50 <= t <= 150)
         /\ (getpixel im 100 t = Some (234, 179, 8) <-> 50 <= t <= 150).
Proof. apply (circle_extent willing ∅). reflexivity. Defined.

(** X7. The circle in the image a run produces has no holes: from a pixel
    of the fill colour, every pixel of its row between it and column 100,
    and every pixel of its column between it and row 100, has the fill
    colour too. *)
Theorem circle_solid (host : Host) (files : gmap string file) :
  alloc_ok host 200 200 = true ->
  exists im,
    produces host files im
    /\ forall x y t, 0 <= x < 200 -> 0 <= y < 200 ->
         getpixel im x y = Some (234, 179, 8) ->
         (x <= t <= 100 \/ 100 <= t <= x ->
          getpixel im t y = Some (234, 179, 8))
         /\ (y <= t <= 100 \/ 100 <= t <= y ->
             getpixel im x t = Some (234, 179, 8)).
Proof.
  intros Halloc. exists logo. split; [by apply produces_logo|].
  intros x y t Hx Hy. change (234, 179, 8) with yellow.
  rewrite yellow_written by done. intros Hw. split; intros Ht.
  - apply yellow_written; [lia|done|]. by apply (written_row_solid x t y).
  - apply yellow_written; [done|lia|]. by apply (written_column_solid x y t).
Qed.

Lemma circle_solid_witness :
  exists im,
    produces willing ∅ im
    /\ forall x y t, 0 <= x < 200 -> 0 <= y < 200 ->
         getpixel im x y = Some (234, 179, 8) ->
         (x <= t <= 100 \/ 100 <= t <= x ->
          getpixel im t y = Some (234, 179, 8))
         /\ (y <= t <= 100 \/ 100 <= t <= y ->
             getpixel im x t = Some (234, 179, 8)).
Proof. apply (circle_solid willing ∅). reflexivity. Defined.

(** X8. Drawing the ellipse a second time through the same handle changes
    no pixel: on an image object of any size, the raster after two drawing
    calls has at every coordinate the pixel it had after the first. *)
Theorem drawing_twice (w : World) (d : ImageDraw.ImageDraw) (im : Raster) :
  heap w !! ImageDraw.im d = Some im ->
  exists w1 w2 im1 im2,
    draw_call d w = (Ok tt, w1)
    /\ draw_call d w1 = (Ok tt, w2)
    /\ heap w1 !! ImageDraw.im d = Some im1
    /\ heap w2 !! ImageDraw.im d = Some im2
    /\ forall x y, getpixel im2 x y = getpixel im1 x y.
Proof.
  intros Hd. pose proof (lookup_lt_Some _ _ _ Hd) as Hlen.
  set (w1 := with_heap w (<[ImageDraw.im d := drawn im]> (heap w))).
  assert (heap w1 !! ImageDraw.im d = Some (drawn im)) as Hd1.
  { unfold w1. cbn [heap with_heap]. by apply list_lookup_insert_eq. }
  exists w1, (with_heap w1 (<[ImageDraw.im d := drawn (drawn im)]> (heap w1))).
  exists (drawn im), (drawn (drawn im)).
  split; [by apply draw_call_spec|]. split; [by apply draw_call_spec|].
  split; [exact Hd1|]. split.
  - cbn [heap with_heap]. apply list_lookup_insert_eq.
    unfold w1. cbn [heap with_heap]. by rewrite length_insert.
  - intros x y. rewrite (getpixel_drawn_any (drawn im)).
    destruct (drawn_size im) as [-> ->].
    rewrite getpixel_drawn_any, paint_twice. by rewrite orb_diag.
Qed.

Lemma drawing_twice_witness :
  exists w1 w2 im1 im2,
    draw_call pen studio = (Ok tt, w1)
    /\ draw_call pen w1 = (Ok tt, w2)
    /\ heap w1 !! ImageDraw.im pen = Some im1
    /\ heap w2 !! ImageDraw.im pen = Some im2
    /\ forall x y, getpixel im2 x y = getpixel im1 x y.
Proof. apply (drawing_twice studio pen canvas). reflexivity. Defined.
